(** * double_udp: the router of main.go

    A shallow embedding of [src/main.go]: the component registry
    ([Register], [GetComponent]), packet dispatch ([Route]), lifecycle
    control ([StartAll], [StopAll]), the buffer pool ([GetBuffer],
    [PutBuffer]) and the start-up sequence of [main].

    Conventions of the model.
    - Go's [int] is a 64-bit integer; the only arithmetic the file does on
      one is the comparison [cfg.BufferSize <= 0], so sizes are plain [Z].
    - [make([]byte, n)] depends on the platform (the allocator's limit,
      [maxAlloc]) and on the memory left when it is called; the first is a
      parameter, the second an input of each allocation.
    - [error] values are built by [fmt.Errorf]; [nil] is [None].
    - The listener and forwarder live in other files.  What main.go needs
      from them, the [Component] interface and the two constructors, is
      taken as a parameter: a component is an opaque handle [C] (Go holds
      it as a pointer behind the interface) whose methods act on a world
      [W] (sockets, goroutines, component-private state).  The registry
      is not part of [W]: main.go writes it only in [Register], which
      [main] calls before any component is started.
    - Everything the router itself does that is visible from outside, a
      [log.Printf] line or a call of a component method, is recorded in a
      trace of [Event]s, in program order.
    - The model is sequential: the [sync.RWMutex] only serialises access to
      the registry and is not represented. *)

From stdpp Require Import base strings list gmap fin_maps.
From Stdlib Require Import ZArith Strings.Byte.

(** ** Errors and panics *)

(** [fmt.Errorf] without [%w] yields a plain message; with [%w] it also
    remembers the wrapped error.  [msg] is the complete formatted text. *)
Inductive error : Type :=
| errorString (msg : string)
| wrapError (msg : string) (err : error).

(** The [Error()] method. *)
Definition Error (e : error) : string :=
  match e with
  | errorString msg => msg
  | wrapError msg _ => msg
  end.

(** [errors.Unwrap]. *)
Definition Unwrap (e : error) : option error :=
  match e with
  | errorString _ => None
  | wrapError _ err => Some err
  end.

(** A computation that the run time may cut short: by a panic, or by the
    fatal error "runtime: out of memory", which ends the process. *)
Inductive Res (A : Type) : Type :=
| Ok (a : A)
| Panic (msg : string)
| OutOfMemory.
Arguments Ok {A} a.
Arguments Panic {A} msg.
Arguments OutOfMemory {A}.

(** What the program has from the platform it was built for: [maxAlloc],
    the largest size in bytes the allocator accepts (1 << 48 on
    linux/amd64). *)
Class Runtime : Type := mkRuntime {
  maxAlloc : N
}.

(** ** Configuration *)

Module ComponentConfig.
Record t : Type := mk {
  Type_ : string;
  Tag : string;
  ListenAddr : string;
  BufferSize : Z;
  Timeout : Z;
  ReplaceOldConns : bool;
  Forwarders : list string;
  QueueSize : Z;
  ReconnectInterval : Z;
  ConnectionCheckTime : Z;
  Detour : list string
}.

(** The assignment [cfg.BufferSize = n] on the loop's copy of the entry. *)
Definition set_BufferSize (n : Z) (cfg : t) : t :=
  mk (Type_ cfg) (Tag cfg) (ListenAddr cfg) n (Timeout cfg)
     (ReplaceOldConns cfg) (Forwarders cfg) (QueueSize cfg)
     (ReconnectInterval cfg) (ConnectionCheckTime cfg) (Detour cfg).
End ComponentConfig.

Module Config.
Record t : Type := mk {
  BufferSize : Z;
  Services : list ComponentConfig.t
}.
End Config.

(** ** Buffers and the pool *)

Abbreviation buffer := (list byte).

(** [make([]byte, n)].  A negative length, or one above [maxAlloc],
    panics.  A length of zero takes no memory.  Any other length asks the
    heap, which supplies a zeroed slice of that length or has the process
    die; [heap] tells whether the heap can serve this request. *)
Definition make_bytes `{!Runtime} (heap : bool) (n : Z) : Res buffer :=
  if (n <? 0)%Z || (Z.of_N maxAlloc <? n)%Z then
    Panic "runtime error: makeslice: len out of range"
  else if (n =? 0)%Z then Ok []
  else if heap then Ok (replicate (Z.to_nat n) x00)
  else OutOfMemory.

(** A [sync.Pool] holding [*[]byte]: the [New] closure, which is told
    whether the heap can serve its allocation, and the buffers currently
    parked in the pool. *)
Record Pool : Type := mkPool {
  New : bool → Res buffer;
  items : list buffer
}.

(** [Pool.Get].  Which parked buffer comes back is not specified, and the
    pool may ignore its content and behave as if empty; [pick] is that
    choice: [Some i] takes the [i]-th parked buffer when there is one,
    anything else calls [New], with [heap] as the heap's answer. *)
Definition Pool_Get (pick : option nat) (heap : bool) (p : Pool)
  : Res buffer * Pool :=
  match pick ≫= (λ i, pair i <$> items p !! i) with
  | Some (i, buf) => (Ok buf, mkPool (New p) (delete i (items p)))
  | None => (New p heap, p)
  end.

(** [Pool.Put]. *)
Definition Pool_Put (buf : buffer) (p : Pool) : Pool :=
  mkPool (New p) (buf :: items p).

(** ** Components *)

(** The [Component] interface, for handles [C] acting on a world [W]. *)
Class Component (W Packet C : Type) : Type := {
  Start : C → W → option error * W;
  Stop : C → W → option error * W;
  GetTag : C → string;
  HandlePacket : C → Packet → W → option error * W
}.

(** The constructors of the two component kinds. *)
Class Factory (C : Type) : Type := {
  NewListenComponent : ComponentConfig.t → C;
  NewForwardComponent : ComponentConfig.t → C
}.

(** What the router does, as seen from outside. *)
Inductive Event (Packet C : Type) : Type :=
| EvLog (msg : string)
| EvStart (c : C) (err : option error)
| EvStop (c : C) (err : option error)
| EvHandlePacket (c : C) (packet : Packet) (err : option error)
| EvNewListen (cfg : ComponentConfig.t)
| EvNewForward (cfg : ComponentConfig.t).
Arguments EvLog {Packet C} msg.
Arguments EvStart {Packet C} c err.
Arguments EvStop {Packet C} c err.
Arguments EvHandlePacket {Packet C} c packet err.
Arguments EvNewListen {Packet C} cfg.
Arguments EvNewForward {Packet C} cfg.

(** The router: registry and buffer pool. *)
Record Router (C : Type) : Type := mkRouter {
  components : gmap string C;
  bufferPool : Pool
}.
Arguments mkRouter {C} components bufferPool.
Arguments components {C} _.
Arguments bufferPool {C} _.

(** [for tag, component := range r.components]: Go leaves the order of a
    map iteration unspecified, but every entry is visited exactly once. *)
Record RangeOrder (C : Type) : Type := mkRangeOrder {
  range : gmap string C → list (string * C);
  range_perm : ∀ m, range m ≡ₚ map_to_list m
}.
Arguments range {C} _ _.
Arguments range_perm {C} _ _.

(** One call on the buffer pool; an acquire comes with the pool's pick and
    the heap's answer. *)
Inductive PoolOp : Type :=
| OpGet (pick : option nat) (heap : bool)
| OpPut (buf : buffer).

(** The pool was built for buffers of [n] bytes and holds no shorter one. *)
Definition pool_ok `{!Runtime} (n : Z) (p : Pool) : Prop :=
  New p = (λ heap, make_bytes heap n)
  ∧ Forall (λ buf : buffer, (n ≤ Z.of_nat (length buf))%Z) (items p).

(** A call that does not release a buffer shorter than [n] bytes. *)
Definition put_ok (n : Z) (op : PoolOp) : Prop :=
  match op with
  | OpPut buf => (n ≤ Z.of_nat (length buf))%Z
  | OpGet _ _ => True
  end.

(** A call for which the heap has memory if it needs any: buffers of no
    bytes need none. *)
Definition heap_ok (n : Z) (op : PoolOp) : Prop :=
  match op with
  | OpGet _ heap => n = 0%Z ∨ heap = true
  | OpPut _ => True
  end.

(** An acquire that returned a buffer of at least [n] bytes. *)
Definition got_ok (n : Z) (res : Res buffer) : Prop :=
  match res with
  | Ok buf => (n ≤ Z.of_nat (length buf))%Z
  | Panic _ | OutOfMemory => False
  end.

(** The picks of the acquire calls of a run. *)
Definition gets (ops : list PoolOp) : list (option nat) :=
  omap (λ op, match op with OpGet pick _ => Some pick | OpPut _ => None end) ops.

(** The buffers released in a run. *)
Definition puts (ops : list PoolOp) : list buffer :=
  omap (λ op, match op with OpPut buf => Some buf | OpGet _ _ => None end) ops.

(** What [main] gets from [os.ReadFile] and [json.Unmarshal]. *)
Inductive Loaded : Type :=
| ReadFileFailed (err : error)
| UnmarshalFailed (err : error)
| Parsed (config : Config.t).

(** How far [main] gets: [log.Fatalf], or [select {}] with the router it
    built.  What becomes of the process at [select {}] is for the run time
    to say and is not part of the model: it stays blocked there as long as
    some other goroutine can run, and it is ended with "all goroutines are
    asleep - deadlock!" when none can, as when no component was started. *)
Inductive Outcome (C : Type) : Type :=
| Fatal (msg : string)
| ReachedSelect (router : Router C).
Arguments Fatal {C} msg.
Arguments ReachedSelect {C} router.

Section Model.
Context {W Packet C : Type} `{!Component W Packet C} `{!Factory C} `{!Runtime}.
Context (srcTag : Packet → string).

(** *** The effect monad: world passing plus a trace *)

Definition M (A : Type) : Type := W → A * W * list (Event Packet C).

Definition ret {A} (a : A) : M A := λ w, (a, w, []).

Definition bind {A B} (m : M A) (k : A → M B) : M B :=
  λ w, let '(a, w1, t1) := m w in
       let '(b, w2, t2) := k a w1 in
       (b, w2, t1 ++ t2).

Notation "'let*' x ':=' m 'in' k" := (bind m (λ x, k))
  (at level 10, x name, m at level 100, k at level 200).

Definition logPrintf (msg : string) : M unit := λ w, ((), w, [EvLog msg]).

Definition callStart (c : C) : M (option error) :=
  λ w, let '(err, w') := Start c w in (err, w', [EvStart c err]).

Definition callStop (c : C) : M (option error) :=
  λ w, let '(err, w') := Stop c w in (err, w', [EvStop c err]).

Definition callHandlePacket (c : C) (packet : Packet) : M (option error) :=
  λ w, let '(err, w') := HandlePacket c packet w in
       (err, w', [EvHandlePacket c packet err]).

Definition callNewListenComponent (cfg : ComponentConfig.t) : M C :=
  λ w, (NewListenComponent cfg, w, [EvNewListen cfg]).

Definition callNewForwardComponent (cfg : ComponentConfig.t) : M C :=
  λ w, (NewForwardComponent cfg, w, [EvNewForward cfg]).

(** A [for ... range] loop whose body ends normally or by [continue]. *)
Fixpoint forRange {A} (l : list A) (body : A → M unit) : M unit :=
  match l with
  | [] => ret ()
  | x :: rest => let* _ := body x in forRange rest body
  end.

(** A [for ... range] loop whose body may [return err]. *)
Fixpoint forRangeReturn {A} (l : list A) (body : A → M (option error))
  : M (option error) :=
  match l with
  | [] => ret None
  | x :: rest =>
      let* r := body x in
      match r with
      | Some err => ret (Some err)
      | None => forRangeReturn rest body
      end
  end.

(** A [for ... range] loop that updates a local variable. *)
Fixpoint forRangeState {A S} (l : list A) (body : A → S → M S) (s : S) : M S :=
  match l with
  | [] => ret s
  | x :: rest => let* s := body x s in forRangeState rest body s
  end.

(** *** Router *)

(** Lines 51-61. *)
Definition NewRouter (config : Config.t) : Router C :=
  mkRouter ∅ (mkPool (λ heap, make_bytes heap (Config.BufferSize config)) []).

(** Lines 64-66; [pick] is the pool's choice and [heap] the heap's answer,
    see [Pool_Get]. *)
Definition GetBuffer (pick : option nat) (heap : bool) (r : Router C)
  : Res buffer * Router C :=
  let '(buf, p) := Pool_Get pick heap (bufferPool r) in
  (buf, mkRouter (components r) p).

(** Lines 69-71: any slice is accepted. *)
Definition PutBuffer (buf : buffer) (r : Router C) : Router C :=
  mkRouter (components r) (Pool_Put buf (bufferPool r)).

(** Lines 74-89: the router after the call and the error returned. *)
Definition Register (c : C) (r : Router C) : Router C * option error :=
  let tag := GetTag c in
  if decide (tag = "") then
    (r, Some (errorString "component has empty tag"))
  else
    match components r !! tag with
    | Some _ =>
        (r, Some (errorString ("component with tag " +:+ tag +:+ " already registered")))
    | None =>
        (mkRouter (<[tag := c]> (components r)) (bufferPool r), None)
    end.

(** Lines 92-97: [None] is [exists == false]. *)
Definition GetComponent (r : Router C) (tag : string) : option C :=
  components r !! tag.

(** Lines 102-114: one turn of the loop of [Route]. *)
Definition Route_body (r : Router C) (packet : Packet) (tag : string) : M unit :=
  if decide (tag = srcTag packet) then ret ()
  else
    match GetComponent r tag with
    | None =>
        logPrintf ("Warning: trying to route to non-existing component: " +:+ tag)
    | Some c =>
        let* err := callHandlePacket c packet in
        match err with
        | Some e => logPrintf ("Error routing to " +:+ tag +:+ ": " +:+ Error e)
        | None => ret ()
        end
    end.

(** Lines 100-117. *)
Definition Route (r : Router C) (packet : Packet) (destTags : list string)
  : M (option error) :=
  let* _ := forRange destTags (Route_body r packet) in
  ret None.

(** Lines 125-128: one turn of the loop of [StartAll]. *)
Definition StartAll_body (entry : string * C) : M (option error) :=
  let '(tag, component) := entry in
  let* _ := logPrintf ("Starting component: " +:+ tag) in
  let* err := callStart component in
  match err with
  | Some e =>
      ret (Some (wrapError
                   ("failed to start component " +:+ tag +:+ ": " +:+ Error e) e))
  | None => ret None
  end.

(** Lines 120-131. *)
Definition StartAll (order : RangeOrder C) (r : Router C) : M (option error) :=
  forRangeReturn (range order (components r)) StartAll_body.

(** Lines 139-142: one turn of the loop of [StopAll]. *)
Definition StopAll_body (entry : string * C) : M unit :=
  let '(tag, component) := entry in
  let* _ := logPrintf ("Stopping component: " +:+ tag) in
  let* err := callStop component in
  match err with
  | Some e => logPrintf ("Error stopping component " +:+ tag +:+ ": " +:+ Error e)
  | None => ret ()
  end.

(** Lines 134-144. *)
Definition StopAll (order : RangeOrder C) (r : Router C) : M unit :=
  forRange (range order (components r)) StopAll_body.

(** *** main *)

(** Lines 169-171: the loop's copy of the entry takes the global buffer
    size when it has none of its own. *)
Definition applyGlobalBufferSize (config : Config.t) (cfg : ComponentConfig.t)
  : ComponentConfig.t :=
  if (ComponentConfig.BufferSize cfg <=? 0)%Z
  then ComponentConfig.set_BufferSize (Config.BufferSize config) cfg
  else cfg.

(** The [switch cfg.Type]; [None] is the [continue] of the default case. *)
Definition main_switch (cfg : ComponentConfig.t) : M (option C) :=
  if decide (ComponentConfig.Type_ cfg = "listen") then
    let* component := callNewListenComponent cfg in ret (Some component)
  else if decide (ComponentConfig.Type_ cfg = "forward") then
    let* component := callNewForwardComponent cfg in ret (Some component)
  else
    let* _ := logPrintf ("Unknown component type: " +:+ ComponentConfig.Type_ cfg) in
    ret None.

(** One turn of [for _, cfg := range config.Services]. *)
Definition main_body (config : Config.t) (cfg : ComponentConfig.t)
    (router : Router C) : M (Router C) :=
  let cfg := applyGlobalBufferSize config cfg in
  let* component := main_switch cfg in
  match component with
  | None => ret router
  | Some component =>
      let '(router, err) := Register component router in
      match err with
      | Some e =>
          let* _ := logPrintf ("Failed to register component "
                               +:+ ComponentConfig.Tag cfg +:+ ": " +:+ Error e) in
          ret router
      | None => ret router
      end
  end.

(** The services loop of [main], from the router built by [NewRouter]. *)
Definition main_services (config : Config.t) (router : Router C) : M (Router C) :=
  forRangeState (Config.Services config) (main_body config) router.

(** Lines 146-197, from the outcome of reading and parsing the file on. *)
Definition main (input : Loaded) (order : RangeOrder C) : M (Outcome C) :=
  match input with
  | ReadFileFailed err => ret (Fatal ("Failed to read config: " +:+ Error err))
  | UnmarshalFailed err => ret (Fatal ("Failed to parse config: " +:+ Error err))
  | Parsed config =>
      let router := NewRouter config in
      let* router := main_services config router in
      let* err := StartAll order router in
      match err with
      | Some e => ret (Fatal ("Failed to start components: " +:+ Error e))
      | None => ret (ReachedSelect router)
      end
  end.

(** *** Runs of the pool and of the registry *)

(** A caller's use of the pool: the [GetBuffer] results in call order.
    A panic or a fatal error ends the run. *)
Fixpoint pool_run (ops : list PoolOp) (r : Router C) : list (Res buffer) * Router C :=
  match ops with
  | [] => ([], r)
  | OpGet pick heap :: rest =>
      let '(res, r1) := GetBuffer pick heap r in
      match res with
      | Panic _ | OutOfMemory => ([res], r1)
      | Ok _ => let '(out, r2) := pool_run rest r1 in (res :: out, r2)
      end
  | OpPut buf :: rest => pool_run rest (PutBuffer buf r)
  end.

(** Successive [Register] calls, results dropped. *)
Definition registerAll (cs : list C) (r : Router C) : Router C :=
  foldl (λ r c, (Register c r).1) r cs.

(** The entries of the services list that [main] has a constructor for. *)
Definition known_type (cfg : ComponentConfig.t) : Prop :=
  ComponentConfig.Type_ cfg = "listen" ∨ ComponentConfig.Type_ cfg = "forward".

#[global] Instance known_type_dec cfg : Decision (known_type cfg).
Proof. unfold known_type. apply _. Defined.

(** The component [main] builds for an entry, if any: the value of the
    [switch], without its trace. *)
Definition component_of (config : Config.t) (cfg : ComponentConfig.t) : option C :=
  let cfg := applyGlobalBufferSize config cfg in
  if decide (ComponentConfig.Type_ cfg = "listen") then
    Some (NewListenComponent cfg)
  else if decide (ComponentConfig.Type_ cfg = "forward") then
    Some (NewForwardComponent cfg)
  else None.

(** Every entry of a registry is stored under its component's own tag. *)
Definition keyed_by_tag (m : gmap string C) : Prop :=
  ∀ tag c, m !! tag = Some c → GetTag c = tag.

(** *** Reading a trace *)

Definition handled (tr : list (Event Packet C)) : list C :=
  omap (λ ev, match ev with EvHandlePacket c _ _ => Some c | _ => None end) tr.


Definition stopped (tr : list (Event Packet C)) : list C :=
  omap (λ ev, match ev with EvStop c _ => Some c | _ => None end) tr.

Definition logged (tr : list (Event Packet C)) : list string :=
  omap (λ ev, match ev with EvLog msg => Some msg | _ => None end) tr.

Definition constructed (tr : list (Event Packet C)) : list ComponentConfig.t :=
  omap (λ ev, match ev with
              | EvNewListen cfg | EvNewForward cfg => Some cfg
              | _ => None
              end) tr.


(** The [Stop] calls of a trace that returned an error. *)
Definition failedStops (tr : list (Event Packet C)) : list (C * error) :=
  omap (λ ev, match ev with EvStop c (Some e) => Some (c, e) | _ => None end) tr.

(** The [HandlePacket] calls of a trace that returned an error. *)
Definition failedHandles (tr : list (Event Packet C)) : list (C * error) :=
  omap (λ ev, match ev with
              | EvHandlePacket c _ (Some e) => Some (c, e)
              | _ => None
              end) tr.

End Model.

(** The iteration order that follows the map's own enumeration. *)
Definition mapOrder {C : Type} : RangeOrder C :=
  mkRangeOrder C map_to_list (λ m, reflexivity (map_to_list m)).

(** ** A small instance, to run the model on *)

Module Demo.

(** The platform of the released linux/amd64 binary. *)
#[export] Instance linux_amd64 : Runtime := mkRuntime (2 ^ 48)%N.

(** A component described by what it will do. *)
Record comp : Type := mkComp {
  kind : string;
  ctag : string;
  startFails : bool;
  stopFails : bool;
  handleFails : bool
}.

(** A packet: source tag and payload. *)
Definition packet : Type := string * buffer.

Definition fail_if (b : bool) (msg : string) : option error :=
  if b then Some (errorString msg) else None.

(** The world counts the calls that reached a component. *)
#[export] Instance comp_Component : Component nat packet comp := {|
  Start c w := (fail_if (startFails c) "listen udp: address already in use", S w);
  Stop c w := (fail_if (stopFails c) "close: use of closed connection", S w);
  GetTag c := ctag c;
  HandlePacket c _ w := (fail_if (handleFails c) "write: connection refused", S w)
|}.

(** A listener without an address, or a forwarder without upstreams,
    fails to start. *)
#[export] Instance comp_Factory : Factory comp := {|
  NewListenComponent cfg :=
    mkComp "listen" (ComponentConfig.Tag cfg)
           (bool_decide (ComponentConfig.ListenAddr cfg = "")) false false;
  NewForwardComponent cfg :=
    mkComp "forward" (ComponentConfig.Tag cfg)
           (bool_decide (ComponentConfig.Forwarders cfg = [])) false false
|}.

#[export] Instance comp_eq_dec : EqDecision comp.
Proof. solve_decision. Defined.

Definition service (type tag addr : string) (size : Z) : ComponentConfig.t :=
  ComponentConfig.mk type tag addr size 30 false [addr] 16 5 10 [].

Definition listenL : comp := mkComp "listen" "L" false false false.
Definition forwardF : comp := mkComp "forward" "F" false true true.
Definition forwardG : comp := mkComp "forward" "G" false false false.
Definition forwardBad : comp := mkComp "forward" "B" true false false.

(** A router with a listener and two forwarders, the first of which
    fails on every packet. *)
Definition router3 : Router comp :=
  registerAll [listenL; forwardF; forwardG] (NewRouter (Config.mk 4 [])).

(** A packet that came in at the listener. *)
Definition fromL : packet := ("L", [x70; x69; x6e; x67]).

(** A services list with an entry of unknown type between two good ones. *)
Definition bogus : ComponentConfig.t := service "bogus" "X" "127.0.0.1:9300" 0.
Definition before : list ComponentConfig.t := [service "listen" "L" "127.0.0.1:9000" 0].
Definition after : list ComponentConfig.t := [service "forward" "F" "127.0.0.1:9100" 2048].

(** An entry of unknown type, a listener, and a forwarder that reuses the
    listener's tag. *)
Definition clash : Config.t :=
  Config.mk 1500 [service "bogus" "X" "127.0.0.1:9300" 0;
                  service "listen" "L" "127.0.0.1:9000" 0;
                  service "forward" "L" "127.0.0.1:9100" 0].

End Demo.

(** * Properties *)

Section Proofs.
Context {W Packet C : Type} `{!Component W Packet C} `{!Factory C} `{!Runtime}.
Context (srcTag : Packet → string).

Implicit Types (r : Router C) (c : C) (w : W) (tag : string).
Implicit Types (tr : list (Event Packet C)).

(** *** The registry *)

Lemma keyed_by_tag_empty : keyed_by_tag ∅.
Proof. intros tag c Hl. by rewrite lookup_empty in Hl. Qed.

Lemma Register_keyed c r :
  keyed_by_tag (components r) → keyed_by_tag (components (Register c r).1).
Proof.
  intros Hk. unfold Register.
  destruct (decide (GetTag c = "")) as [|Hne]; [done|].
  destruct (components r !! GetTag c) eqn:Hl; [done|].
  intros tag c' Hl'. cbn in Hl'.
  destruct (decide (GetTag c = tag)) as [<-|Hd].
  - rewrite lookup_insert_eq in Hl'. by inversion Hl'.
  - rewrite lookup_insert_ne in Hl' by done. by apply Hk.
Qed.

Lemma registerAll_keyed cs r :
  keyed_by_tag (components r) → keyed_by_tag (components (registerAll cs r)).
Proof.
  revert r. induction cs as [|c cs IH]; intros r Hk; [done|].
  cbn. apply IH. by apply Register_keyed.
Qed.

Lemma registerAll_NewRouter_keyed config cs :
  keyed_by_tag (components (registerAll cs (NewRouter config))).
Proof. apply registerAll_keyed, keyed_by_tag_empty. Qed.

Lemma keyed_tags_are_keys (m : gmap string C) :
  keyed_by_tag m → GetTag <$> (map_to_list m).*2 = (map_to_list m).*1.
Proof.
  intros Hk.
  assert (Forall (λ kc, GetTag kc.2 = kc.1) (map_to_list m)) as Hall.
  { apply Forall_forall. intros [k c] Hin.
    apply elem_of_map_to_list in Hin. by apply Hk. }
  induction Hall as [|[k c] l Hkc _ IH]; [done|].
  cbn in *. by rewrite Hkc, IH.
Qed.

Lemma keyed_tags_NoDup (m : gmap string C) :
  keyed_by_tag m → NoDup (GetTag <$> (map_to_list m).*2).
Proof.
  intros Hk. rewrite keyed_tags_are_keys by done.
  apply NoDup_fst_map_to_list.
Qed.

(** C3. [Register] fails exactly on an empty or already registered tag.
    On success the component is stored under its tag, the registry grows
    by one entry and the pool is untouched; on failure the router is
    returned as it was, so the entry already held under a duplicated tag
    stays.  In every registry that [Register] calls can build from a new
    router, the tags of the registered components are pairwise
    distinct. *)
Theorem Register_spec c r :
  let tag := GetTag c in
  let r' := (Register c r).1 in
  let err := (Register c r).2 in
  (is_Some err ↔ tag = "" ∨ is_Some (components r !! tag))
  ∧ match err with
    | None =>
        components r' = <[tag := c]> (components r)
        ∧ components r' !! tag = Some c
        ∧ size (components r') = S (size (components r))
        ∧ bufferPool r' = bufferPool r
    | Some e =>
        r' = r
        ∧ e = if decide (tag = "")
              then errorString "component has empty tag"
              else errorString ("component with tag " +:+ tag +:+ " already registered")
    end
  ∧ (∀ config cs,
       let r0 := registerAll cs (NewRouter config) in
       NoDup (GetTag <$> (map_to_list (components r0)).*2)
       ∧ NoDup (GetTag <$> (map_to_list (components (Register c r0).1)).*2)).
Proof.
  cbn zeta. unfold Register.
  destruct (decide (GetTag c = "")) as [He|Hne]; cbn.
  - split_and!; [split; eauto | done | done |].
    intros config cs. split; apply keyed_tags_NoDup, registerAll_NewRouter_keyed.
  - destruct (components r !! GetTag c) as [c0|] eqn:Hl; cbn.
    + split_and!; [split; eauto | done | done |].
      intros config cs.
      pose proof (registerAll_NewRouter_keyed config cs) as Hk.
      split; [by apply keyed_tags_NoDup|].
      apply keyed_tags_NoDup.
      pose proof (Register_keyed c _ Hk) as Hk'.
      unfold Register in Hk'. by destruct (decide (GetTag c = "")).
    + split_and!.
      * split; [by intros [? ?]|]. intros [?|[? ?]]; done.
      * done.
      * apply lookup_insert_eq.
      * by apply map_size_insert_None.
      * done.
      * intros config cs.
        pose proof (registerAll_NewRouter_keyed config cs) as Hk.
        split; [by apply keyed_tags_NoDup|].
        apply keyed_tags_NoDup.
        pose proof (Register_keyed c _ Hk) as Hk'.
        unfold Register in Hk'. by destruct (decide (GetTag c = "")).
Qed.

(** *** Loops *)

Lemma forRange_app {A} (l1 l2 : list A) (body : A → M (W:=W) (Packet:=Packet) (C:=C) unit) w :
  forRange (l1 ++ l2) body w =
  let '(_, w1, t1) := forRange l1 body w in
  let '(u, w2, t2) := forRange l2 body w1 in
  (u, w2, t1 ++ t2).
Proof.
  revert w. induction l1 as [|x l1 IH]; intros w; cbn.
  - by destruct (forRange l2 body w) as [[[] w2] t2].
  - unfold bind. destruct (body x w) as [[[] wx] tx].
    rewrite IH.
    destruct (forRange l1 body wx) as [[[] w1] t1].
    destruct (forRange l2 body w1) as [[[] w2] t2].
    by rewrite app_assoc.
Qed.

(** *** Route *)

Lemma Route_unfold r packet destTags w :
  Route srcTag r packet destTags w =
  let '(_, w1, t1) := forRange destTags (Route_body srcTag r packet) w in
  (None, w1, t1).
Proof.
  unfold Route, bind.
  destruct (forRange _ _ w) as [[[] w1] t1]. cbn. by rewrite app_nil_r.
Qed.

Lemma Route_nil r packet w : Route srcTag r packet [] w = (None, w, []).
Proof. done. Qed.

Lemma Route_cons r packet tag rest w :
  Route srcTag r packet (tag :: rest) w =
  let '(_, w1, t1) := Route_body srcTag r packet tag w in
  let '(res, w2, t2) := Route srcTag r packet rest w1 in
  (res, w2, t1 ++ t2).
Proof.
  rewrite !Route_unfold. cbn. unfold bind.
  destruct (Route_body _ _ _ _ w) as [[[] w1] t1].
  rewrite Route_unfold.
  by destruct (forRange _ _ w1) as [[[] w2] t2].
Qed.

Lemma Route_app r packet l1 l2 w :
  Route srcTag r packet (l1 ++ l2) w =
  let '(_, w1, t1) := Route srcTag r packet l1 w in
  let '(res, w2, t2) := Route srcTag r packet l2 w1 in
  (res, w2, t1 ++ t2).
Proof.
  rewrite !Route_unfold, forRange_app.
  destruct (forRange l1 _ w) as [[[] w1] t1].
  rewrite Route_unfold.
  by destruct (forRange l2 _ w1) as [[[] w2] t2].
Qed.

Lemma Route_body_step r packet tag w :
  Route_body srcTag r packet tag w =
  if decide (tag = srcTag packet) then ((), w, [])
  else match components r !! tag with
       | None =>
           ((), w,
            [EvLog ("Warning: trying to route to non-existing component: " +:+ tag)])
       | Some c =>
           let '(err, w1) := HandlePacket c packet w in
           ((), w1,
            EvHandlePacket c packet err ::
            match err with
            | Some e => [EvLog ("Error routing to " +:+ tag +:+ ": " +:+ Error e)]
            | None => []
            end)
       end.
Proof.
  unfold Route_body, GetComponent.
  destruct (decide (tag = srcTag packet)); [done|].
  destruct (components r !! tag) as [c|]; [|done].
  unfold bind, callHandlePacket.
  destruct (HandlePacket c packet w) as [[e|] w1]; done.
Qed.

Lemma Route_result r packet destTags w :
  (Route srcTag r packet destTags w).1.1 = None.
Proof.
  rewrite Route_unfold. by destruct (forRange _ _ w) as [[[] w1] t1].
Qed.

Lemma handled_app tr1 tr2 : handled (tr1 ++ tr2) = handled tr1 ++ handled tr2.
Proof. apply omap_app. Qed.

Lemma Route_handled r packet destTags w :
  handled (Route srcTag r packet destTags w).2 =
  omap (λ tag, components r !! tag)
       (filter (λ tag, tag ≠ srcTag packet) destTags).
Proof.
  revert w. induction destTags as [|tag rest IH]; intros w; [done|].
  rewrite Route_cons, Route_body_step.
  rewrite filter_cons.
  destruct (decide (tag = srcTag packet)) as [Heq|Hne].
  - specialize (IH w).
    destruct (Route srcTag r packet rest w) as [[res w2] t2]. cbn [snd] in *.
    by rewrite decide_False by (intros Hn; by apply Hn).
  - rewrite decide_True by done. cbn.
    destruct (components r !! tag) as [c|] eqn:Hl.
    + destruct (HandlePacket c packet w) as [err w1].
      specialize (IH w1).
      destruct (Route srcTag r packet rest w1) as [[res w2] t2].
      cbn [snd] in *. rewrite handled_app, IH. by destruct err.
    + specialize (IH w).
      by destruct (Route srcTag r packet rest w) as [[res w2] t2].
Qed.

Lemma Route_filter_source r packet destTags w :
  Route srcTag r packet destTags w =
  Route srcTag r packet (filter (λ tag, tag ≠ srcTag packet) destTags) w.
Proof.
  revert w. induction destTags as [|tag rest IH]; intros w; [done|].
  rewrite filter_cons.
  destruct (decide (tag ≠ srcTag packet)) as [Hne|Heq].
  - rewrite !Route_cons.
    destruct (Route_body _ _ _ _ w) as [[[] w1] t1]. by rewrite IH.
  - rewrite Route_cons, Route_body_step.
    rewrite decide_True by (by destruct (decide (tag = srcTag packet)); [|exfalso; auto]).
    rewrite <- IH.
    by destruct (Route srcTag r packet rest w) as [[res w2] t2].
Qed.

Lemma Route_handled_registered r packet destTags w :
  Forall (λ c, ∃ tag, tag ∈ destTags ∧ tag ≠ srcTag packet
                      ∧ components r !! tag = Some c)
         (handled (Route srcTag r packet destTags w).2).
Proof.
  rewrite Route_handled. apply Forall_forall. intros c Hin.
  apply list_elem_of_omap in Hin as (tag & Hin & Hl).
  apply list_elem_of_filter in Hin as [Hne Hin]. eauto.
Qed.

(** C1. On a registry whose entries are stored under their own tag (the
    only kind [Register] builds), [Route] never calls [HandlePacket] on a
    component whose tag is the packet's source tag.  Entries of
    [destTags] equal to the source tag are skipped: routing behaves as on
    the list without them, and the components called are exactly the
    registered ones among the remaining entries, in list order. *)
Theorem Route_never_back_to_source r packet destTags w :
  keyed_by_tag (components r) →
  let tr := (Route srcTag r packet destTags w).2 in
  Forall (λ c, GetTag c ≠ srcTag packet) (handled tr)
  ∧ Route srcTag r packet destTags w
    = Route srcTag r packet (filter (λ tag, tag ≠ srcTag packet) destTags) w
  ∧ handled tr
    = omap (λ tag, components r !! tag)
           (filter (λ tag, tag ≠ srcTag packet) destTags).
Proof.
  intros Hk tr. split_and!.
  - eapply Forall_impl; [apply Route_handled_registered|].
    intros c (tag & _ & Hne & Hl). by rewrite (Hk _ _ Hl).
  - apply Route_filter_source.
  - apply Route_handled.
Qed.

(** C2. [Route] walks [destTags] in list order and nothing that happens
    at one entry ends the walk: routing to [l1 ++ l2] is routing to [l1]
    followed by routing to [l2] from the world [l1] left behind, whatever
    the outcome on [l1]; one entry is skipped when it is the source tag,
    logged when it is not registered, and otherwise handed to the
    component, whose error is logged.  Hence [HandlePacket] is called
    for every registered entry other than the source, in order, however
    many of the calls fail. *)
Theorem Route_continues_after_failure r packet w :
  (∀ l1 l2 w0,
      Route srcTag r packet (l1 ++ l2) w0 =
      let '(_, w1, t1) := Route srcTag r packet l1 w0 in
      let '(res, w2, t2) := Route srcTag r packet l2 w1 in
      (res, w2, t1 ++ t2))
  ∧ (∀ tag w0,
      Route srcTag r packet [tag] w0 =
      if decide (tag = srcTag packet) then (None, w0, [])
      else match components r !! tag with
           | None =>
               (None, w0,
                [EvLog ("Warning: trying to route to non-existing component: "
                        +:+ tag)])
           | Some c =>
               let '(err, w1) := HandlePacket c packet w0 in
               (None, w1,
                EvHandlePacket c packet err ::
                match err with
                | Some e =>
                    [EvLog ("Error routing to " +:+ tag +:+ ": " +:+ Error e)]
                | None => []
                end)
           end)
  ∧ (∀ destTags,
      handled (Route srcTag r packet destTags w).2 =
      omap (λ tag, components r !! tag)
           (filter (λ tag, tag ≠ srcTag packet) destTags)).
Proof.
  split_and!.
  - intros l1 l2 w0. apply Route_app.
  - intros tag w0. rewrite Route_cons, Route_body_step.
    destruct (decide (tag = srcTag packet)); [done|].
    destruct (components r !! tag) as [c|]; [|done].
    destruct (HandlePacket c packet w0) as [err w1].
    rewrite Route_nil. by rewrite app_nil_r.
  - intros destTags. apply Route_handled.
Qed.

(** C9. [Route] returns [nil] for every router, packet, destination list
    and world, so neither a missing destination nor a failed
    [HandlePacket] reaches the caller. *)
Theorem Route_returns_nil r packet destTags w :
  (Route srcTag r packet destTags w).1.1 = None.
Proof. apply Route_result. Qed.

(** *** StartAll and StopAll *)


Lemma stopped_app tr1 tr2 : stopped (tr1 ++ tr2) = stopped tr1 ++ stopped tr2.
Proof. apply omap_app. Qed.

Lemma StartAll_body_step tag c w :
  StartAll_body (Packet:=Packet) (tag, c) w =
  let '(err, w1) := Start c w in
  (match err with
   | Some e =>
       Some (wrapError ("failed to start component " +:+ tag +:+ ": " +:+ Error e) e)
   | None => None
   end,
   w1, [EvLog ("Starting component: " +:+ tag); EvStart c err]).
Proof.
  unfold StartAll_body, bind, logPrintf, callStart.
  by destruct (Start c w) as [[e|] w1].
Qed.


Lemma main_unfold config order w :
  main (Parsed config) order w =
  let '(router, w1, t1) := main_services config (NewRouter config) w in
  let '(res, w2, t2) := StartAll (Packet:=Packet) order router w1 in
  (match res with
   | Some e => Fatal ("Failed to start components: " +:+ Error e)
   | None => ReachedSelect router
   end, w2, t1 ++ t2).
Proof.
  unfold main, bind.
  destruct (main_services _ _ w) as [[router w1] t1].
  destruct (StartAll order router w1) as [[[e|] w2] t2]; cbn;
    by rewrite app_nil_r.
Qed.


Lemma StopAll_body_step tag c w :
  StopAll_body (Packet:=Packet) (tag, c) w =
  let '(err, w1) := Stop c w in
  ((), w1,
   EvLog ("Stopping component: " +:+ tag) :: EvStop c err ::
   match err with
   | Some e => [EvLog ("Error stopping component " +:+ tag +:+ ": " +:+ Error e)]
   | None => []
   end).
Proof.
  unfold StopAll_body, bind, logPrintf, callStop.
  by destruct (Stop c w) as [[e|] w1].
Qed.

Lemma StopAll_loop (entries : list (string * C)) w :
  stopped (forRange entries (StopAll_body (Packet:=Packet)) w).2 = entries.*2.
Proof.
  revert w. induction entries as [|[tag c] rest IH]; intros w; [done|].
  cbn [forRange]. unfold bind. rewrite StopAll_body_step.
  destruct (Stop c w) as [err w1]. specialize (IH w1).
  destruct (forRange rest StopAll_body w1) as [[[] w2] t2].
  cbn [snd] in *. rewrite stopped_app, IH. by destruct err.
Qed.

Lemma StopAll_loop_run (entries : list (string * C)) w :
  forRange entries (StopAll_body (Packet:=Packet)) w =
  ((),
   foldl (λ w e, (Stop e.2 w).2) w entries,
   concat
     (imap (λ i e,
              let err := (Stop e.2 (foldl (λ w e, (Stop e.2 w).2) w
                                          (take i entries))).1 in
              EvLog ("Stopping component: " +:+ e.1) :: EvStop e.2 err ::
              match err with
              | Some x =>
                  [EvLog ("Error stopping component " +:+ e.1 +:+ ": " +:+ Error x)]
              | None => []
              end)
           entries)).
Proof.
  revert w. induction entries as [|[tag c] rest IH]; intros w; [done|].
  cbn [forRange]. unfold bind. rewrite StopAll_body_step.
  destruct (Stop c w) as [err w1] eqn:Hstop. rewrite IH.
  cbn [foldl imap concat take snd fst]. rewrite Hstop. cbn [fst snd].
  f_equal. f_equal. f_equal. apply imap_ext.
  intros i [tag' c'] _. cbn. by rewrite Hstop.
Qed.

(** C6. [StopAll] goes through the registry's entries in iteration order
    and, for each of them, logs, calls [Stop] on the component in the world
    the earlier calls left, and logs the error if the call returned one;
    then it goes on to the next entry, whatever the call returned.  Its
    trace is these turns one after the other and nothing else, and its
    final world is the one the last [Stop] left.  So [Stop] is called once
    per entry: the components stopped are the registered components, each
    as often as it is registered, which is once in every registry that
    [Register] calls can build. *)
Theorem StopAll_stops_every_component order r w :
  let entries := range order (components r) in
  let run := StopAll (Packet:=Packet) order r w in
  let world_at (i : nat) := foldl (λ w e, (Stop e.2 w).2) w (take i entries) in
  run.2 =
    concat
      (imap (λ i e,
               let err := (Stop e.2 (world_at i)).1 in
               EvLog ("Stopping component: " +:+ e.1) :: EvStop e.2 err ::
               match err with
               | Some x =>
                   [EvLog ("Error stopping component " +:+ e.1 +:+ ": " +:+ Error x)]
               | None => []
               end)
            entries)
  ∧ run.1.2 = world_at (length entries)
  ∧ stopped run.2 = entries.*2
  ∧ stopped run.2 ≡ₚ (map_to_list (components r)).*2
  ∧ length (stopped run.2) = size (components r)
  ∧ (∀ config cs w0,
       NoDup (stopped (StopAll (Packet:=Packet) order
                         (registerAll cs (NewRouter config)) w0).2)).
Proof.
  cbn zeta. split_and!.
  - unfold StopAll. by rewrite StopAll_loop_run.
  - unfold StopAll. by rewrite StopAll_loop_run, firstn_all.
  - unfold StopAll. apply StopAll_loop.
  - unfold StopAll. by rewrite StopAll_loop, (range_perm order).
  - unfold StopAll.
    rewrite StopAll_loop, length_fmap, (range_perm order).
    by rewrite length_map_to_list.
  - intros config cs w0. unfold StopAll. rewrite StopAll_loop, (range_perm order).
    eapply (NoDup_fmap_1 GetTag), keyed_tags_NoDup, registerAll_NewRouter_keyed.
Qed.

(** *** The services loop of main *)

Lemma applyGlobalBufferSize_Type config cfg :
  ComponentConfig.Type_ (applyGlobalBufferSize config cfg) = ComponentConfig.Type_ cfg.
Proof. unfold applyGlobalBufferSize. by case_match. Qed.

Lemma constructed_app tr1 tr2 :
  constructed (tr1 ++ tr2) = constructed tr1 ++ constructed tr2.
Proof. apply omap_app. Qed.

Lemma main_body_step config cfg router w :
  main_body (W:=W) (Packet:=Packet) config cfg router w =
  let cfg' := applyGlobalBufferSize config cfg in
  let registered c ev :=
    (((Register c router).1, w,
      ev :: match (Register c router).2 with
            | Some e =>
                [EvLog ("Failed to register component "
                        +:+ ComponentConfig.Tag cfg' +:+ ": " +:+ Error e)]
            | None => []
            end) : Router C * W * list (Event Packet C)) in
  if decide (ComponentConfig.Type_ cfg = "listen") then
    registered (NewListenComponent cfg') (EvNewListen cfg')
  else if decide (ComponentConfig.Type_ cfg = "forward") then
    registered (NewForwardComponent cfg') (EvNewForward cfg')
  else
    (router, w, [EvLog ("Unknown component type: " +:+ ComponentConfig.Type_ cfg)]).
Proof.
  unfold main_body, main_switch. cbn zeta.
  rewrite applyGlobalBufferSize_Type.
  destruct (decide (ComponentConfig.Type_ cfg = "listen")).
  { unfold bind, callNewListenComponent, ret. cbn.
    destruct (Register _ router) as [router' [err|]]; done. }
  destruct (decide (ComponentConfig.Type_ cfg = "forward")).
  { unfold bind, callNewForwardComponent, ret. cbn.
    destruct (Register _ router) as [router' [err|]]; done. }
  done.
Qed.


Lemma services_constructed config (l : list ComponentConfig.t) router w :
  constructed (forRangeState l (main_body (W:=W) (Packet:=Packet) config) router w).2
  = applyGlobalBufferSize config <$> filter known_type l.
Proof.
  revert router w. induction l as [|cfg l IH]; intros router w; [done|].
  cbn [forRangeState]. unfold bind. rewrite main_body_step. cbn zeta.
  rewrite filter_cons.
  destruct (decide (ComponentConfig.Type_ cfg = "listen")) as [Hl|Hl].
  { rewrite decide_True by (by left).
    specialize (IH (Register (NewListenComponent (applyGlobalBufferSize config cfg)) router).1 w).
    destruct (forRangeState l _ _ w) as [[s2 w2] t2]. cbn [snd] in *.
    rewrite fmap_cons, <- IH. by destruct (Register _ router).2. }
  destruct (decide (ComponentConfig.Type_ cfg = "forward")) as [Hf|Hf].
  { rewrite decide_True by (by right).
    specialize (IH (Register (NewForwardComponent (applyGlobalBufferSize config cfg)) router).1 w).
    destruct (forRangeState l _ _ w) as [[s2 w2] t2]. cbn [snd] in *.
    rewrite fmap_cons, <- IH. by destruct (Register _ router).2. }
  rewrite decide_False by (intros [?|?]; done).
  specialize (IH router w).
  by destruct (forRangeState l _ _ w) as [[s2 w2] t2].
Qed.

Lemma services_router config (l : list ComponentConfig.t) router w :
  (forRangeState l (main_body (W:=W) (Packet:=Packet) config) router w).1
  = (registerAll (omap (component_of config) l) router, w).
Proof.
  revert router w. induction l as [|cfg l IH]; intros router w; [done|].
  cbn [forRangeState]. unfold bind. rewrite main_body_step. cbn zeta.
  cbn [omap list_omap]. unfold component_of at 1. cbn zeta.
  rewrite applyGlobalBufferSize_Type.
  destruct (decide (ComponentConfig.Type_ cfg = "listen")) as [Hl|Hl].
  { specialize (IH (Register (NewListenComponent (applyGlobalBufferSize config cfg)) router).1 w).
    destruct (forRangeState l _ _ w) as [[s2 w2] t2]. done. }
  destruct (decide (ComponentConfig.Type_ cfg = "forward")) as [Hf|Hf].
  { specialize (IH (Register (NewForwardComponent (applyGlobalBufferSize config cfg)) router).1 w).
    destruct (forRangeState l _ _ w) as [[s2 w2] t2]. done. }
  specialize (IH router w).
  by destruct (forRangeState l _ _ w) as [[s2 w2] t2].
Qed.

Lemma StartAll_constructed (entries : list (string * C)) w :
  constructed (forRangeReturn entries (StartAll_body (Packet:=Packet)) w).2 = [].
Proof.
  revert w. induction entries as [|[tag c] rest IH]; intros w; [done|].
  cbn [forRangeReturn]. unfold bind at 1. rewrite StartAll_body_step.
  destruct (Start c w) as [[e|] w1]; [done|].
  specialize (IH w1).
  destruct (forRangeReturn rest StartAll_body w1) as [[[err|] w2] t2];
    cbn [snd] in *; by rewrite constructed_app, IH.
Qed.

Lemma main_constructed config order w :
  constructed (main (Parsed config) order w).2
  = applyGlobalBufferSize config <$> filter known_type (Config.Services config).
Proof.
  rewrite main_unfold.
  pose proof (services_constructed config (Config.Services config)
                (NewRouter config) w) as Hc.
  unfold main_services.
  destruct (forRangeState _ _ _ w) as [[router w1] t1].
  pose proof (StartAll_constructed (range order (components router)) w1) as Hs.
  unfold StartAll.
  destruct (forRangeReturn _ _ w1) as [[res w2] t2]. cbn [snd] in *.
  by rewrite constructed_app, Hc, Hs, app_nil_r.
Qed.

(** C7. The entry handed to a constructor carries the router-wide buffer
    size when its own is zero or negative and its own otherwise, with
    every other field as configured; this holds for each entry of the
    services list that [main] constructs a component for. *)
Theorem effective_buffer_size config :
  (∀ cfg,
      ComponentConfig.BufferSize (applyGlobalBufferSize config cfg) =
      if (ComponentConfig.BufferSize cfg <=? 0)%Z
      then Config.BufferSize config
      else ComponentConfig.BufferSize cfg)
  ∧ (∀ cfg,
      applyGlobalBufferSize config cfg =
      ComponentConfig.set_BufferSize
        (if (ComponentConfig.BufferSize cfg <=? 0)%Z
         then Config.BufferSize config
         else ComponentConfig.BufferSize cfg) cfg)
  ∧ (∀ order w,
      constructed (main (W:=W) (Packet:=Packet) (Parsed config) order w).2 =
      applyGlobalBufferSize config <$> filter known_type (Config.Services config)).
Proof.
  split_and!.
  - intros cfg. unfold applyGlobalBufferSize. by case_match.
  - intros cfg. unfold applyGlobalBufferSize. case_match; [done|]. by destruct cfg.
  - intros order w. apply main_constructed.
Qed.


(** *** The buffer pool *)

Lemma make_bytes_cases heap n :
  match make_bytes heap n with
  | Ok buf =>
      (0 ≤ n ≤ Z.of_N maxAlloc)%Z
      ∧ buf = replicate (Z.to_nat n) x00
      ∧ Z.of_nat (length buf) = n
  | Panic msg =>
      ((n < 0)%Z ∨ (Z.of_N maxAlloc < n)%Z)
      ∧ msg = "runtime error: makeslice: len out of range"
  | OutOfMemory => (0 < n ≤ Z.of_N maxAlloc)%Z ∧ heap = false
  end.
Proof.
  unfold make_bytes.
  destruct (Z.ltb_spec n 0); cbn [orb]; [split; [lia|done]|].
  destruct (Z.ltb_spec (Z.of_N maxAlloc) n); [split; [lia|done]|].
  destruct (Z.eqb_spec n 0) as [->|Hne]; [repeat split; lia|].
  destruct heap.
  - repeat split; try lia. rewrite length_replicate. lia.
  - split; [lia|done].
Qed.

Lemma make_bytes_in_range heap n :
  (0 ≤ n ≤ Z.of_N maxAlloc)%Z →
  make_bytes heap n =
  if heap || (n =? 0)%Z then Ok (replicate (Z.to_nat n) x00) else OutOfMemory.
Proof.
  intros Hn. unfold make_bytes.
  destruct (Z.ltb_spec n 0); [lia|]. cbn [orb].
  destruct (Z.ltb_spec (Z.of_N maxAlloc) n); [lia|].
  destruct (Z.eqb_spec n 0) as [->|Hne]; [by rewrite orb_true_r|].
  by destruct heap.
Qed.

Lemma make_bytes_zero heap : make_bytes heap 0 = Ok [].
Proof.
  rewrite make_bytes_in_range by lia. cbn. by rewrite orb_true_r.
Qed.

Lemma Register_bufferPool c r : bufferPool (Register c r).1 = bufferPool r.
Proof. unfold Register. repeat case_match; done. Qed.

Lemma registerAll_bufferPool cs r : bufferPool (registerAll cs r) = bufferPool r.
Proof.
  revert r. induction cs as [|c cs IH]; intros r; [done|].
  unfold registerAll in *. cbn. by rewrite IH, Register_bufferPool.
Qed.

Lemma GetBuffer_NewRouter config pick heap :
  GetBuffer pick heap (NewRouter (C:=C) config)
  = (make_bytes heap (Config.BufferSize config), NewRouter config).
Proof. unfold GetBuffer, Pool_Get. by destruct pick. Qed.

(** C10. A new buffer is made with the top-level [BufferSize] as it
    stands: when the allocation yields a buffer, it is zeroed and its
    length is exactly that number.  Nothing clamps the number: zero gives
    the empty buffer, a negative value or one above the allocator's limit
    makes the allocation panic, and within the limit only an exhausted heap
    stands in the way.  Neither the services list nor the buffer sizes of
    its entries play a part: the router [main] ends up with has the pool
    [NewRouter] built. *)
Theorem pool_allocates_global_size config :
  (∀ pick heap,
      GetBuffer pick heap (NewRouter (C:=C) config)
      = (make_bytes heap (Config.BufferSize config), NewRouter config))
  ∧ (∀ heap,
      match make_bytes heap (Config.BufferSize config) with
      | Ok buf =>
          (0 ≤ Config.BufferSize config ≤ Z.of_N maxAlloc)%Z
          ∧ buf = replicate (Z.to_nat (Config.BufferSize config)) x00
          ∧ Z.of_nat (length buf) = Config.BufferSize config
      | Panic msg =>
          ((Config.BufferSize config < 0)%Z
           ∨ (Z.of_N maxAlloc < Config.BufferSize config)%Z)
          ∧ msg = "runtime error: makeslice: len out of range"
      | OutOfMemory =>
          (0 < Config.BufferSize config ≤ Z.of_N maxAlloc)%Z ∧ heap = false
      end)
  ∧ (∀ services pick heap,
      GetBuffer pick heap (NewRouter (C:=C) (Config.mk 0 services))
      = (Ok [], NewRouter (Config.mk 0 services)))
  ∧ (∀ services services',
      bufferPool (NewRouter (C:=C) (Config.mk (Config.BufferSize config) services))
      = bufferPool (NewRouter (C:=C) (Config.mk (Config.BufferSize config) services')))
  ∧ (∀ (w : W) pick heap,
      let router := (main_services (Packet:=Packet) config (NewRouter config) w).1.1 in
      bufferPool router = bufferPool (NewRouter (C:=C) config)
      ∧ (GetBuffer pick heap router).1 = make_bytes heap (Config.BufferSize config)).
Proof.
  split_and!.
  - intros pick heap. apply GetBuffer_NewRouter.
  - intros heap. apply make_bytes_cases.
  - intros services pick heap. rewrite GetBuffer_NewRouter. cbn [Config.BufferSize].
    by rewrite make_bytes_zero.
  - done.
  - intros w pick heap router. subst router. unfold main_services.
    rewrite services_router. cbn [fst].
    assert (bufferPool (registerAll (omap (component_of config) (Config.Services config))
                          (NewRouter config)) = bufferPool (NewRouter (C:=C) config)) as Hp
      by apply registerAll_bufferPool.
    split; [done|].
    unfold GetBuffer. rewrite Hp. unfold Pool_Get. by destruct pick.
Qed.

Lemma GetBuffer_step pick heap r :
  GetBuffer pick heap r =
  match pick ≫= (λ i, pair i <$> items (bufferPool r) !! i) with
  | Some (i, buf) =>
      (Ok buf,
       mkRouter (components r)
                (mkPool (New (bufferPool r)) (delete i (items (bufferPool r)))))
  | None => (New (bufferPool r) heap, r)
  end.
Proof.
  unfold GetBuffer, Pool_Get.
  destruct (pick ≫= _) as [[i buf]|]; [done|]. by destruct r.
Qed.

Lemma GetBuffer_ok n pick heap r :
  (0 ≤ n ≤ Z.of_N maxAlloc)%Z → n = 0%Z ∨ heap = true →
  pool_ok n (bufferPool r) →
  got_ok n (GetBuffer pick heap r).1
  ∧ pool_ok n (bufferPool (GetBuffer pick heap r).2).
Proof.
  intros Hn Hheap [HNew Hitems]. rewrite GetBuffer_step.
  destruct (pick ≫= _) as [[i buf]|] eqn:Hpick; cbn.
  - destruct pick as [j|]; [|done]. cbn in Hpick.
    destruct (items (bufferPool r) !! j) as [b|] eqn:Hl; [|done].
    cbn in Hpick. inversion Hpick; subst i buf.
    split.
    + eapply (Forall_lookup_1 _ _ _ _ Hitems Hl).
    + split; [done|]. cbn. by apply Forall_delete.
  - rewrite HNew, make_bytes_in_range by done.
    assert (heap || (n =? 0)%Z = true) as ->.
    { destruct Hheap as [->| ->]; [by rewrite orb_true_r|done]. }
    cbn. split; [|done]. rewrite length_replicate. lia.
Qed.

Lemma pool_run_ok n ops r :
  (0 ≤ n ≤ Z.of_N maxAlloc)%Z → pool_ok n (bufferPool r) →
  Forall (put_ok n) ops → Forall (heap_ok n) ops →
  Forall (got_ok n) (pool_run ops r).1
  ∧ length (pool_run ops r).1 = length (gets ops)
  ∧ pool_ok n (bufferPool (pool_run ops r).2).
Proof.
  intros Hn Hr Hops Hheap. revert r Hr Hheap.
  induction Hops as [|op ops Hop _ IH]; intros r Hr Hheap; [done|].
  apply Forall_cons_1 in Hheap as [Hh Hheap].
  destruct op as [pick heap|buf]; cbn [pool_run].
  - destruct (GetBuffer_ok n pick heap r Hn Hh Hr) as [Hgot Hr1].
    destruct (GetBuffer pick heap r) as [res r1]. cbn [fst snd] in *.
    destruct res as [buf|msg|]; [|done|done].
    specialize (IH r1 Hr1 Hheap).
    destruct (pool_run ops r1) as [out r2]. cbn [fst snd] in *.
    destruct IH as (Hout & Hlen & Hr2).
    split_and!; [by constructor | cbn; by rewrite Hlen | done].
  - apply IH; [|done]. destruct Hr as [HNew Hitems].
    split; [done|]. cbn. by constructor.
Qed.

Lemma pool_ok_NewRouter config :
  pool_ok (Config.BufferSize config) (bufferPool (NewRouter (C:=C) config)).
Proof. split; [done|]. cbn. constructor. Qed.

(** C4, as the code has it.  With a configured size between zero and the
    allocator's limit, callers that never release a buffer shorter than it
    (in particular callers that release only buffers they acquired, at
    their full length), and a heap that has memory for the buffers that
    need any, every [GetBuffer] of a run returns a buffer, of at least the
    configured length, whatever the order of the calls and whatever the
    pool picks.  When the pool hands out none of its parked buffers, as it
    must when it is empty, [GetBuffer] returns a fresh buffer of exactly
    the configured length; it returns no error and does not wait, and only
    an exhausted heap keeps the buffer from being made. *)
Theorem GetBuffer_length config ops :
  (0 ≤ Config.BufferSize config ≤ Z.of_N maxAlloc)%Z →
  Forall (put_ok (Config.BufferSize config)) ops →
  Forall (heap_ok (Config.BufferSize config)) ops →
  let n := Config.BufferSize config in
  let run := pool_run ops (NewRouter (C:=C) config) in
  Forall (got_ok n) run.1
  ∧ length run.1 = length (gets ops)
  ∧ (∀ pick heap,
       GetBuffer pick heap run.2 =
       match pick ≫= (λ i, pair i <$> items (bufferPool run.2) !! i) with
       | Some (i, buf) =>
           (Ok buf,
            mkRouter (components run.2)
                     (mkPool (New (bufferPool run.2))
                             (delete i (items (bufferPool run.2)))))
       | None =>
           (if heap || (n =? 0)%Z
            then Ok (replicate (Z.to_nat n) x00)
            else OutOfMemory,
            run.2)
       end)
  ∧ (∀ pick heap,
       GetBuffer pick heap (NewRouter (C:=C) config)
       = (if heap || (n =? 0)%Z
          then Ok (replicate (Z.to_nat n) x00)
          else OutOfMemory,
          NewRouter config)).
Proof.
  intros Hn Hops Hheap n run. subst n run.
  destruct (pool_run_ok _ ops (NewRouter config) Hn (pool_ok_NewRouter config)
              Hops Hheap) as (Hgot & Hlen & [HNew Hitems]).
  split_and!; [done|done| |].
  - intros pick heap. rewrite GetBuffer_step.
    destruct (pick ≫= _) as [[i buf]|]; [done|].
    by rewrite HNew, make_bytes_in_range.
  - intros pick heap. by rewrite GetBuffer_NewRouter, make_bytes_in_range.
Qed.

End Proofs.

(** ** Runs of the small instance *)

Module DemoRuns.
Import Demo.

(** The listener's packet goes to the failing forwarder, not back to the
    listener, not to the unregistered tag, and still to the last
    forwarder; the caller sees [nil]. *)
Example route_run :
  Route fst router3 fromL ["F"; "L"; "nowhere"; "G"] 0 =
  (None, 2,
   [EvHandlePacket forwardF fromL (Some (errorString "write: connection refused"));
    EvLog "Error routing to F: write: connection refused";
    EvLog "Warning: trying to route to non-existing component: nowhere";
    EvHandlePacket forwardG fromL None]).
Proof. vm_compute. reflexivity. Qed.

Example register_duplicate :
  Register (mkComp "forward" "L" false false false) router3 =
  (router3, Some (errorString "component with tag L already registered")).
Proof. vm_compute. reflexivity. Qed.

Example register_empty :
  (Register (mkComp "listen" "" false false false) router3).2 =
  Some (errorString "component has empty tag").
Proof. reflexivity. Qed.

Example stop_run :
  stopped (StopAll (Packet:=packet) mapOrder router3 0).2
  ≡ₚ [listenL; forwardF; forwardG]
  ∧ logged (StopAll (Packet:=packet) mapOrder router3 0).2
    ≡ₚ ["Stopping component: L"; "Stopping component: F";
        "Error stopping component F: close: use of closed connection";
        "Stopping component: G"].
Proof.
  vm_compute.
  split; apply (bool_decide_unpack _); vm_compute; reflexivity.
Qed.

Example main_clash_run :
  main (Packet:=packet) (Parsed clash) mapOrder 0 =
  (ReachedSelect
     (registerAll [mkComp "listen" "L" false false false]
                  (NewRouter clash)),
   1,
   [EvLog "Unknown component type: bogus";
    EvNewListen (service "listen" "L" "127.0.0.1:9000" 1500);
    EvNewForward (service "forward" "L" "127.0.0.1:9100" 1500);
    EvLog "Failed to register component L: component with tag L already registered";
    EvLog "Starting component: L";
    EvStart (mkComp "listen" "L" false false false) None]).
Proof. vm_compute. reflexivity. Qed.

(** The registry of [router3] is keyed by tag, and no component called
    for the listener's packet carries the listener's tag. *)
Lemma Route_never_back_to_source_witness :
  keyed_by_tag (components router3)
  ∧ Forall (λ c, GetTag c ≠ "L")
           (handled (Route fst router3 fromL ["F"; "L"; "nowhere"; "G"] 0).2).
Proof.
  split.
  - apply registerAll_NewRouter_keyed.
  - apply (Route_never_back_to_source fst router3 fromL ["F"; "L"; "nowhere"; "G"] 0).
    apply registerAll_NewRouter_keyed.
Defined.


(** Acquire, release at full length, acquire again: both buffers have the
    configured four bytes. *)
Lemma GetBuffer_length_witness :
  (0 ≤ Config.BufferSize (Config.mk 4 []) ≤ Z.of_N maxAlloc)%Z
  ∧ Forall (put_ok 4)
      [OpGet None true; OpPut [x01; x02; x03; x04]; OpGet (Some 0%nat) true]
  ∧ Forall (heap_ok 4)
      [OpGet None true; OpPut [x01; x02; x03; x04]; OpGet (Some 0%nat) true]
  ∧ Forall (got_ok 4)
      (pool_run (C:=comp)
         [OpGet None true; OpPut [x01; x02; x03; x04]; OpGet (Some 0%nat) true]
         (NewRouter (Config.mk 4 []))).1.
Proof.
  assert (0 ≤ Config.BufferSize (Config.mk 4 []) ≤ Z.of_N maxAlloc)%Z as Hn
    by (cbn; lia).
  assert (Forall (put_ok 4)
            [OpGet None true; OpPut [x01; x02; x03; x04]; OpGet (Some 0%nat) true])
    as Hops by (repeat apply Forall_cons_2; cbn; try lia; constructor).
  assert (Forall (heap_ok 4)
            [OpGet None true; OpPut [x01; x02; x03; x04]; OpGet (Some 0%nat) true])
    as Hheap by (repeat apply Forall_cons_2; cbn; auto; constructor).
  split; [exact Hn|]. split; [exact Hops|]. split; [exact Hheap|].
  apply (GetBuffer_length (C:=comp) (Config.mk 4 []) _ Hn Hops Hheap).
Defined.

(** C4 as stated fails: [PutBuffer] takes any slice, so a one-byte buffer
    released into a pool configured for four bytes comes back from the
    next [GetBuffer]; and with a configured size that is negative, or
    above the allocator's limit, the allocation of a fresh buffer panics
    even with memory to spare. *)
Lemma GetBuffer_length_counterexample :
  (pool_run (C:=comp) [OpPut [x01]; OpGet (Some 0%nat) true]
     (NewRouter (Config.mk 4 []))).1 = [Ok [x01]]
  ∧ ¬ Forall (got_ok 4)
        (pool_run (C:=comp) [OpPut [x01]; OpGet (Some 0%nat) true]
           (NewRouter (Config.mk 4 []))).1
  ∧ (GetBuffer None true (NewRouter (C:=comp) (Config.mk (-1) []))).1
    = Panic "runtime error: makeslice: len out of range"
  ∧ (GetBuffer None true (NewRouter (C:=comp) (Config.mk (2 ^ 62) []))).1
    = Panic "runtime error: makeslice: len out of range".
Proof.
  split; [reflexivity|]. split; [|split; reflexivity].
  intros Hall. apply Forall_cons_1 in Hall as [Hshort _].
  cbn in Hshort. lia.
Qed.


End DemoRuns.

(** * Further properties of the router *)

Section Registry.
Context {W Packet C : Type} `{!Component W Packet C} `{!Factory C} `{!Runtime}.

Implicit Types (r : Router C) (c : C) (tag : string).

Lemma Register_lookup c r tag :
  components (Register c r).1 !! tag =
  match (Register c r).2 with
  | None => if decide (tag = GetTag c) then Some c else components r !! tag
  | Some _ => components r !! tag
  end.
Proof.
  unfold Register.
  destruct (decide (GetTag c = "")); [done|].
  destruct (components r !! GetTag c) eqn:Hl; [done|]. cbn.
  destruct (decide (tag = GetTag c)) as [->|Hne].
  - apply lookup_insert_eq.
  - by rewrite lookup_insert_ne.
Qed.

(** [GetComponent] after [Register]: a successful call makes the component
    available under its tag and leaves every other tag as it was; a failed
    call changes no lookup at all. *)
Theorem GetComponent_Register c r tag :
  GetComponent (Register c r).1 tag =
  match (Register c r).2 with
  | None => if decide (tag = GetTag c) then Some c else GetComponent r tag
  | Some _ => GetComponent r tag
  end.
Proof. unfold GetComponent. apply Register_lookup. Qed.

(** Registering the same component a second time always fails and leaves
    the router as the first call left it. *)
Theorem Register_twice c r :
  Register c (Register c r).1 =
  ((Register c r).1,
   Some (if decide (GetTag c = "")
         then errorString "component has empty tag"
         else errorString ("component with tag " +:+ GetTag c
                           +:+ " already registered"))).
Proof.
  unfold Register at 2 3.
  destruct (decide (GetTag c = "")) as [He|Hne].
  - cbn. unfold Register. by rewrite decide_True.
  - destruct (components r !! GetTag c) as [c0|] eqn:Hl; cbn.
    + unfold Register. rewrite decide_False by done. by rewrite Hl.
    + unfold Register. rewrite decide_False by done. cbn.
      by rewrite lookup_insert_eq.
Qed.

Lemma registerAll_cons c cs r :
  registerAll (c :: cs) r = registerAll cs (Register c r).1.
Proof. done. Qed.

Lemma registerAll_lookup cs r tag :
  components (registerAll cs r) !! tag =
  match components r !! tag with
  | Some c => Some c
  | None =>
      if decide (tag = "") then None
      else head (filter (λ c, GetTag c = tag) cs)
  end.
Proof.
  revert r. induction cs as [|c cs IH]; intros r.
  - cbn. destruct (components r !! tag); [done|]. by case_decide.
  - rewrite registerAll_cons, IH.
    rewrite Register_lookup, filter_cons.
    unfold Register.
    destruct (decide (GetTag c = "")) as [He|Hne]; cbn.
    { destruct (components r !! tag); [done|].
      destruct (decide (tag = "")) as [->|Ht]; [done|].
      rewrite decide_False; [done|]. intros Heq. apply Ht. by rewrite <- Heq. }
    destruct (components r !! GetTag c) as [c0|] eqn:Hl; cbn.
    { destruct (components r !! tag) eqn:Hl'; [done|].
      destruct (decide (tag = "")); [done|].
      rewrite decide_False; [done|]. intros Heq. rewrite Heq in Hl. congruence. }
    destruct (decide (tag = GetTag c)) as [->|Hne'].
    + rewrite Hl. rewrite decide_False by done. by rewrite decide_True.
    + destruct (components r !! tag); [done|].
      destruct (decide (tag = "")); [done|].
      rewrite decide_False; [done|]. intros Heq. by apply Hne'.
Qed.

(** The first registration under a tag wins: in the registry that a series
    of [Register] calls builds from a new router, a tag holds the first
    component of the series that carries it, and the empty tag holds
    nothing. *)
Theorem registerAll_first_wins config cs tag :
  GetComponent (registerAll cs (NewRouter config)) tag =
  if decide (tag = "") then None
  else head (filter (λ c, GetTag c = tag) cs).
Proof.
  unfold GetComponent. rewrite registerAll_lookup. cbn.
  by rewrite lookup_empty.
Qed.

(** [Register] never removes or replaces an entry: every lookup that
    succeeds before a series of calls gives the same component after it,
    and the registry grows by at most one entry per call. *)
Theorem registerAll_grows cs r :
  components r ⊆ components (registerAll cs r)
  ∧ size (components (registerAll cs r)) ≤ size (components r) + length cs.
Proof.
  split.
  - apply map_subseteq_spec. intros tag c Hl.
    by rewrite registerAll_lookup, Hl.
  - revert r. induction cs as [|c cs IH]; intros r; [cbn; lia|].
    rewrite registerAll_cons. specialize (IH (Register c r).1).
    assert (size (components (Register c r).1) ≤ S (size (components r))) as Hs.
    { unfold Register. destruct (decide (GetTag c = "")); [cbn; lia|].
      destruct (components r !! GetTag c) eqn:Hl; [cbn; lia|].
      cbn. rewrite map_size_insert_None by done. lia. }
    cbn [length]. lia.
Qed.

(** The registry [main] starts: a tag holds the component built from the
    first entry of the services list, of a known type, whose component
    carries that tag; later entries with the same tag are dropped. *)
Theorem main_registry_first_wins config (w : W) tag :
  GetComponent
    (main_services (Packet:=Packet) config (NewRouter config) w).1.1 tag =
  if decide (tag = "") then None
  else head (filter (λ c, GetTag c = tag)
                    (omap (component_of config) (Config.Services config))).
Proof.
  unfold main_services. rewrite services_router. cbn [fst].
  unfold GetComponent. rewrite registerAll_lookup. cbn.
  by rewrite lookup_empty.
Qed.

End Registry.

Section PoolUse.
Context {C : Type} `{!Runtime}.

Implicit Types (r : Router C) (buf : buffer) (ops : list PoolOp).

Lemma GetBuffer_frame pick heap r :
  components (GetBuffer pick heap r).2 = components r
  ∧ New (bufferPool (GetBuffer pick heap r).2) = New (bufferPool r).
Proof.
  rewrite GetBuffer_step. by destruct (pick ≫= _) as [[i b]|].
Qed.

(** Calls on the buffer pool never touch the registry, nor the pool's
    allocation function: after any run of [GetBuffer] and [PutBuffer]
    calls every [GetComponent] answers as before. *)
Theorem pool_run_keeps_registry ops r :
  components (pool_run ops r).2 = components r
  ∧ New (bufferPool (pool_run ops r).2) = New (bufferPool r)
  ∧ ∀ tag, GetComponent (pool_run ops r).2 tag = GetComponent r tag.
Proof.
  assert (components (pool_run ops r).2 = components r
          ∧ New (bufferPool (pool_run ops r).2) = New (bufferPool r)) as [Hc HN].
  { revert r. induction ops as [|[pick heap|buf] ops IH]; intros r; [done| |].
    - cbn [pool_run].
      destruct (GetBuffer_frame pick heap r) as [Hc HN].
      destruct (GetBuffer pick heap r) as [[b|msg|] r1]; cbn [snd] in *;
        [|done|done].
      specialize (IH r1). destruct (pool_run ops r1) as [out r2].
      cbn [snd] in *. destruct IH as [-> ->]. done.
    - cbn [pool_run]. destruct (IH (PutBuffer buf r)) as [-> ->]. done. }
  split_and!; [done..|]. intros tag. unfold GetComponent. by rewrite Hc.
Qed.

Lemma pool_run_from ops r :
  Forall (λ res, (∃ heap, res = New (bufferPool r) heap)
                 ∨ ∃ buf, res = Ok buf
                          ∧ (buf ∈ items (bufferPool r) ∨ buf ∈ puts ops))
         (pool_run ops r).1.
Proof.
  revert r. induction ops as [|[pick heap|buf] ops IH]; intros r.
  - constructor.
  - cbn [pool_run]. rewrite GetBuffer_step.
    destruct (pick ≫= _) as [[i b]|] eqn:Hpick.
    + destruct pick as [j|]; [|done]. cbn in Hpick.
      destruct (items (bufferPool r) !! j) as [b'|] eqn:Hl; [|done].
      cbn in Hpick. inversion Hpick; subst i b'.
      specialize (IH (mkRouter (components r)
                        (mkPool (New (bufferPool r)) (delete j (items (bufferPool r)))))).
      destruct (pool_run ops _) as [out r2]. cbn [fst snd] in *.
      constructor.
      * right. exists b. split; [done|]. left. by eapply list_elem_of_lookup_2.
      * eapply Forall_impl; [exact IH|]. cbn.
        intros res [[h ->]|(b0 & -> & [Hin|Hin])]; [left; eauto| |].
        -- right. exists b0. split; [done|]. left.
           by eapply list_elem_of_delete_inv.
        -- right. exists b0. split; [done|]. by right.
    + destruct (New (bufferPool r) heap) as [b|msg|] eqn:HNew.
      * specialize (IH r).
        destruct (pool_run ops r) as [out r2]. cbn [fst snd] in *.
        constructor; [left; eauto|].
        eapply Forall_impl; [exact IH|]. cbn.
        intros res [[h ->]|(b0 & -> & [Hin|Hin])]; [left; eauto| |];
          right; exists b0; (split; [done|]); [by left|by right].
      * cbn. constructor; [left; eauto|constructor].
      * cbn. constructor; [left; eauto|constructor].
  - cbn [pool_run]. specialize (IH (PutBuffer buf r)).
    eapply Forall_impl; [exact IH|]. cbn.
    intros res [[h ->]|(b0 & -> & [Hin|Hin])]; [left; eauto| |].
    + apply elem_of_cons in Hin as [->|Hin].
      * right. exists buf. split; [done|]. right. cbn. left.
      * right. exists b0. split; [done|]. by left.
    + right. exists b0. split; [done|]. right. cbn. by right.
Qed.

(** Where the buffers come from: on a router made by [NewRouter], whatever
    the calls, the pool's picks and the state of the heap, each [GetBuffer]
    yields either the outcome of a fresh allocation of the configured size
    or a buffer that some [PutBuffer] of the run released; the pool invents
    no other buffer. *)
Theorem pool_run_provenance config ops :
  Forall (λ res, (∃ heap, res = make_bytes heap (Config.BufferSize config))
                 ∨ ∃ buf, res = Ok buf ∧ buf ∈ puts ops)
         (pool_run (C:=C) ops (NewRouter config)).1.
Proof.
  eapply Forall_impl; [apply pool_run_from|]. cbn.
  intros res [[h ->]|(buf & -> & [Hin|Hin])]; [left; eauto| |].
  - by apply elem_of_nil in Hin.
  - right. eauto.
Qed.

(** Without releases the pool stays empty: on a router made by [NewRouter]
    with a size between zero and the allocator's limit, and as long as the
    heap has memory for the buffers that need any, any number of
    [GetBuffer] calls each return a fresh zeroed buffer of exactly the
    configured length, and leave the router as it was. *)
Theorem pool_run_fresh config (calls : list (option nat * bool)) :
  (0 ≤ Config.BufferSize config ≤ Z.of_N maxAlloc)%Z →
  Forall (λ call, Config.BufferSize config = 0%Z ∨ call.2 = true) calls →
  pool_run (C:=C) ((λ call, OpGet call.1 call.2) <$> calls) (NewRouter config) =
  (replicate (length calls)
             (Ok (replicate (Z.to_nat (Config.BufferSize config)) x00)),
   NewRouter config).
Proof.
  intros Hn Hall. induction Hall as [|[pick heap] calls Hcall _ IH]; [done|].
  rewrite fmap_cons. cbn [pool_run fst snd]. rewrite GetBuffer_NewRouter.
  rewrite make_bytes_in_range by done.
  assert (heap || (Config.BufferSize config =? 0)%Z = true) as ->.
  { destruct Hcall as [->| Hh]; [by rewrite orb_true_r|]. cbn in Hh. by rewrite Hh. }
  by rewrite IH.
Qed.

End PoolUse.

Section Dispatch.
Context {W Packet C : Type} `{!Component W Packet C} `{!Factory C} `{!Runtime}.
Context (srcTag : Packet → string).

Implicit Types (r : Router C) (c : C) (w : W) (tag : string).
Implicit Types (tr : list (Event Packet C)).

Lemma logged_app tr1 tr2 : logged (tr1 ++ tr2) = logged tr1 ++ logged tr2.
Proof. apply omap_app. Qed.

Lemma failedHandles_app tr1 tr2 :
  failedHandles (tr1 ++ tr2) = failedHandles tr1 ++ failedHandles tr2.
Proof. apply omap_app. Qed.

Lemma failedStops_app tr1 tr2 :
  failedStops (tr1 ++ tr2) = failedStops tr1 ++ failedStops tr2.
Proof. apply omap_app. Qed.

(** What [Route] does to the world is what the [HandlePacket] calls do to
    it, one after the other in list order, each starting from the world
    the previous one left; the router adds nothing of its own. *)
Theorem Route_world r packet destTags w :
  (Route srcTag r packet destTags w).1.2 =
  foldl (λ w c, (HandlePacket c packet w).2) w
        (omap (λ tag, components r !! tag)
              (filter (λ tag, tag ≠ srcTag packet) destTags)).
Proof.
  revert w. induction destTags as [|tag rest IH]; intros w; [done|].
  rewrite Route_cons, Route_body_step, filter_cons.
  destruct (decide (tag = srcTag packet)) as [Heq|Hne].
  - rewrite decide_False by (intros Hn; by apply Hn).
    specialize (IH w).
    by destruct (Route srcTag r packet rest w) as [[res w2] t2].
  - rewrite decide_True by done. cbn [omap list_omap].
    destruct (components r !! tag) as [c|].
    + cbn [foldl].
      destruct (HandlePacket c packet w) as [err w1]. specialize (IH w1).
      by destruct (Route srcTag r packet rest w1) as [[res w2] t2].
    + specialize (IH w).
      by destruct (Route srcTag r packet rest w) as [[res w2] t2].
Qed.

(** [Route] does nothing but hand over the packet it was given and write
    log lines: its trace holds no [Start], no [Stop] and no constructor
    call, and every [HandlePacket] in it carries that very packet. *)
Theorem Route_only_handles_and_logs r packet destTags w :
  Forall (λ ev, match ev with
                | EvHandlePacket _ p _ => p = packet
                | EvLog _ => True
                | _ => False
                end)
         (Route srcTag r packet destTags w).2.
Proof.
  revert w. induction destTags as [|tag rest IH]; intros w; [constructor|].
  rewrite Route_cons, Route_body_step.
  destruct (decide (tag = srcTag packet)).
  - specialize (IH w).
    by destruct (Route srcTag r packet rest w) as [[res w2] t2].
  - destruct (components r !! tag) as [c|].
    + destruct (HandlePacket c packet w) as [err w1]. specialize (IH w1).
      destruct (Route srcTag r packet rest w1) as [[res w2] t2].
      cbn [snd] in *. destruct err; repeat (constructor; [done|]); done.
    + specialize (IH w).
      destruct (Route srcTag r packet rest w) as [[res w2] t2].
      cbn [snd] in *. by constructor.
Qed.

(** Routing to destinations none of which is registered (apart from the
    source itself) reaches no component and leaves the world alone: the
    only effect is one warning per unregistered entry, in list order. *)
Theorem Route_unregistered r packet destTags w :
  Forall (λ tag, tag = srcTag packet ∨ components r !! tag = None) destTags →
  Route srcTag r packet destTags w =
  (None, w,
   (λ tag, EvLog ("Warning: trying to route to non-existing component: " +:+ tag))
   <$> filter (λ tag, tag ≠ srcTag packet) destTags).
Proof.
  intros Hall. induction Hall as [|tag rest Htag _ IH]; [done|].
  rewrite Route_cons, Route_body_step, filter_cons.
  destruct (decide (tag = srcTag packet)) as [Heq|Hne].
  - rewrite IH. by rewrite decide_False by (intros Hn; by apply Hn).
  - rewrite decide_True by done.
    destruct Htag as [?|Hl]; [done|]. by rewrite Hl, IH.
Qed.

(** Every failure of [Route] is logged once and nothing else is: the log
    lines of a call are as many as the unregistered entries other than the
    source plus the [HandlePacket] calls that returned an error. *)
Theorem Route_log_count r packet destTags w :
  let tr := (Route srcTag r packet destTags w).2 in
  length (logged tr) =
  length (filter (λ tag, tag ≠ srcTag packet ∧ ¬ is_Some (components r !! tag))
                 destTags)
  + length (failedHandles tr).
Proof.
  cbn zeta. revert w. induction destTags as [|tag rest IH]; intros w; [done|].
  rewrite Route_cons, Route_body_step, filter_cons.
  destruct (decide (tag = srcTag packet)) as [Heq|Hne].
  - rewrite decide_False by (intros [Hn _]; by apply Hn).
    specialize (IH w).
    by destruct (Route srcTag r packet rest w) as [[res w2] t2].
  - destruct (components r !! tag) as [c|] eqn:Hl.
    + rewrite decide_False by (intros [_ Hn]; apply Hn; eauto).
      destruct (HandlePacket c packet w) as [err w1]. specialize (IH w1).
      destruct (Route srcTag r packet rest w1) as [[res w2] t2].
      cbn [snd] in *. rewrite logged_app, failedHandles_app, !length_app, IH.
      destruct err; cbn; lia.
    + rewrite decide_True by (split; [done|by intros [? ?]]).
      specialize (IH w).
      destruct (Route srcTag r packet rest w) as [[res w2] t2].
      cbn [snd] in *. rewrite logged_app, failedHandles_app, !length_app, IH.
      cbn. lia.
Qed.


(** [StopAll] logs each component once before stopping it and once more
    for each [Stop] that fails, and what it does to the world is what the
    [Stop] calls do to it, one after the other in iteration order. *)
Theorem StopAll_accounting order r w :
  let run := StopAll (Packet:=Packet) order r w in
  length (logged run.2) = size (components r) + length (failedStops run.2)
  ∧ run.1.2 = foldl (λ w e, (Stop e.2 w).2) w (range order (components r)).
Proof.
  cbn zeta. unfold StopAll.
  rewrite <- (length_map_to_list (components r)), <- (range_perm order).
  generalize (range order (components r)). intros entries. revert w.
  induction entries as [|[tag c] rest IH]; intros w; [done|].
  cbn [forRange]. unfold bind. rewrite StopAll_body_step.
  destruct (Stop c w) as [err w1] eqn:Hstop. specialize (IH w1).
  destruct (forRange rest StopAll_body w1) as [[[] w2] t2].
  cbn [fst snd foldl] in *. rewrite Hstop. cbn [snd].
  destruct IH as [IHl IHw]. split; [|done].
  rewrite logged_app, failedStops_app, !length_app, IHl.
  destruct err; cbn; lia.
Qed.

End Dispatch.

Section Startup.
Context {W Packet C : Type} `{!Component W Packet C} `{!Factory C} `{!Runtime}.

Implicit Types (r : Router C) (c : C) (w : W) (tag : string).
Implicit Types (tr : list (Event Packet C)).

Lemma services_events config (l : list ComponentConfig.t) router w :
  Forall (λ ev : Event Packet C,
            match ev with
            | EvLog _ | EvNewListen _ | EvNewForward _ => True
            | _ => False
            end)
         (forRangeState l (main_body (W:=W) config) router w).2.
Proof.
  revert router w. induction l as [|cfg l IH]; intros router w; [constructor|].
  cbn [forRangeState]. unfold bind. rewrite main_body_step. cbn zeta.
  repeat case_decide.
  - specialize (IH (Register (NewListenComponent (applyGlobalBufferSize config cfg)) router).1 w).
    destruct (forRangeState l _ _ w) as [[s2 w2] t2]. cbn [snd] in *.
    destruct (Register _ router).2; repeat (constructor; [done|]); done.
  - specialize (IH (Register (NewForwardComponent (applyGlobalBufferSize config cfg)) router).1 w).
    destruct (forRangeState l _ _ w) as [[s2 w2] t2]. cbn [snd] in *.
    destruct (Register _ router).2; repeat (constructor; [done|]); done.
  - specialize (IH router w).
    destruct (forRangeState l _ _ w) as [[s2 w2] t2]. cbn [snd] in *.
    by constructor.
Qed.

Lemma StartAll_events (entries : list (string * C)) w :
  Forall (λ ev : Event Packet C,
            match ev with
            | EvLog _ | EvStart _ _ => True
            | _ => False
            end)
         (forRangeReturn entries StartAll_body w).2.
Proof.
  revert w. induction entries as [|[tag c] rest IH]; intros w; [constructor|].
  cbn [forRangeReturn]. unfold bind at 1. rewrite StartAll_body_step.
  destruct (Start c w) as [[e|] w1].
  - cbn. repeat (constructor; [done|]). constructor.
  - specialize (IH w1).
    destruct (forRangeReturn rest StartAll_body w1) as [[[err|] w2] t2];
      cbn [snd] in *; repeat (constructor; [done|]); exact IH.
Qed.

Lemma setup_trace_quiet tr :
  Forall (λ ev : Event Packet C,
            match ev with
            | EvLog _ | EvNewListen _ | EvNewForward _ | EvStart _ _ => True
            | _ => False
            end) tr →
  stopped tr = [] ∧ handled tr = [].
Proof.
  induction 1 as [|ev tr Hev _ [IHs IHh]]; [done|].
  destruct ev; try done; cbn; by rewrite ?IHs, ?IHh.
Qed.


Lemma main_trace config order w :
  (main (Parsed config) order w).2 =
  (main_services (Packet:=Packet) config (NewRouter config) w).2
  ++ (StartAll order (main_services (Packet:=Packet) config (NewRouter config) w).1.1
        (main_services (Packet:=Packet) config (NewRouter config) w).1.2).2.
Proof.
  rewrite main_unfold.
  destruct (main_services _ _ w) as [[router w1] t1]. cbn [fst snd].
  by destruct (StartAll order router w1) as [[res w2] t2].
Qed.

(** [main] only sets up and starts: whatever its input, it never calls
    [Stop] on a component and never hands a packet to one. *)
Theorem main_never_stops_or_routes input order w :
  stopped (main (Packet:=Packet) input order w).2 = []
  ∧ handled (main (Packet:=Packet) input order w).2 = [].
Proof.
  destruct input as [err|err|config]; [done..|].
  apply setup_trace_quiet. rewrite main_trace. apply Forall_app. split.
  - eapply Forall_impl; [apply services_events|]. by intros [].
  - eapply Forall_impl; [apply StartAll_events|]. by intros [].
Qed.


(** A services list without a single entry of a known type, the empty
    list included, does not make [main] call [log.Fatalf]: it logs each
    entry, constructs and starts nothing, leaves the world alone and
    reaches [select {}] with the empty registry of a new router. *)
Theorem main_unknown_only config order w :
  Forall (λ cfg, ¬ known_type cfg) (Config.Services config) →
  main (Packet:=Packet) (Parsed config) order w =
  (ReachedSelect (NewRouter config), w,
   (λ cfg, EvLog ("Unknown component type: " +:+ ComponentConfig.Type_ cfg))
   <$> Config.Services config).
Proof.
  intros Hall. rewrite main_unfold. unfold main_services.
  assert (∀ router,
             forRangeState (Config.Services config)
               (main_body (W:=W) (Packet:=Packet) config) router w =
             (router, w,
              (λ cfg, EvLog ("Unknown component type: " +:+ ComponentConfig.Type_ cfg))
              <$> Config.Services config)) as ->.
  { intros router. induction Hall as [|cfg l Hcfg _ IH]; [done|].
    cbn [forRangeState]. unfold bind. rewrite main_body_step. cbn zeta.
    rewrite !decide_False by (intros Heq; apply Hcfg; (by left) || (by right)).
    by rewrite IH. }
  unfold StartAll.
  assert (range order (components (NewRouter (C:=C) config)) = []) as ->.
  { apply Permutation_nil_r. rewrite (range_perm order). cbn.
    by rewrite map_to_list_empty. }
  cbn. by rewrite app_nil_r.
Qed.

(** With a positive router-wide buffer size no component is ever built
    with a buffer size of zero or less, whatever the entries say. *)
Theorem main_positive_buffer config order w :
  (0 < Config.BufferSize config)%Z →
  Forall (λ cfg, (0 < ComponentConfig.BufferSize cfg)%Z)
         (constructed (main (Packet:=Packet) (Parsed config) order w).2).
Proof.
  intros Hpos. rewrite main_constructed. apply Forall_fmap, Forall_forall.
  intros cfg _. cbn. unfold applyGlobalBufferSize.
  destruct (Z.leb_spec (ComponentConfig.BufferSize cfg) 0); [done|lia].
Qed.


End Startup.

Module MoreRuns.
Import Demo.

(** Three acquires in a row on a new router for four-byte buffers. *)
Lemma pool_run_fresh_witness :
  (0 ≤ Config.BufferSize (Config.mk 4 []) ≤ Z.of_N maxAlloc)%Z
  ∧ Forall (λ call : option nat * bool,
              Config.BufferSize (Config.mk 4 []) = 0%Z ∨ call.2 = true)
           [(None, true); (Some 3%nat, true); (None, true)]
  ∧ pool_run (C:=comp)
      ((λ call, OpGet call.1 call.2)
       <$> [(None, true); (Some 3%nat, true); (None, true)])
      (NewRouter (Config.mk 4 []))
    = (replicate 3 (Ok (replicate 4 x00)), NewRouter (Config.mk 4 [])).
Proof.
  assert (0 ≤ Config.BufferSize (Config.mk 4 []) ≤ Z.of_N maxAlloc)%Z as Hn
    by (cbn; lia).
  assert (Forall (λ call : option nat * bool,
                    Config.BufferSize (Config.mk 4 []) = 0%Z ∨ call.2 = true)
                 [(None, true); (Some 3%nat, true); (None, true)]) as Hall
    by (repeat apply Forall_cons_2; cbn; auto; constructor).
  split; [exact Hn|]. split; [exact Hall|].
  apply (pool_run_fresh (C:=comp) (Config.mk 4 []) _ Hn Hall).
Defined.

(** The listener's packet sent to itself and to two tags nobody holds. *)
Lemma Route_unregistered_witness :
  Forall (λ tag, tag = fst fromL ∨ components router3 !! tag = None)
         ["L"; "nowhere"; "void"]
  ∧ Route fst router3 fromL ["L"; "nowhere"; "void"] 0 =
    (None, 0,
     [EvLog "Warning: trying to route to non-existing component: nowhere";
      EvLog "Warning: trying to route to non-existing component: void"]).
Proof.
  assert (Forall (λ tag, tag = fst fromL ∨ components router3 !! tag = None)
                 ["L"; "nowhere"; "void"]) as Hall.
  { apply Forall_cons_2; [by left|].
    apply Forall_cons_2; [right; vm_compute; reflexivity|].
    apply Forall_cons_2; [right; vm_compute; reflexivity|]. constructor. }
  split; [exact Hall|].
  apply (Route_unregistered fst router3 fromL ["L"; "nowhere"; "void"] 0 Hall).
Defined.

(** A configuration with nothing but entries of unknown type. *)
Lemma main_unknown_only_witness :
  Forall (λ cfg, ¬ known_type cfg)
         (Config.Services (Config.mk 1500 [bogus; service "relay" "R" "" 0]))
  ∧ main (Packet:=packet)
      (Parsed (Config.mk 1500 [bogus; service "relay" "R" "" 0])) mapOrder 0 =
    (ReachedSelect (NewRouter (Config.mk 1500 [bogus; service "relay" "R" "" 0])), 0,
     [EvLog "Unknown component type: bogus"; EvLog "Unknown component type: relay"]).
Proof.
  assert (Forall (λ cfg, ¬ known_type cfg)
            (Config.Services (Config.mk 1500 [bogus; service "relay" "R" "" 0])))
    as Hall.
  { apply Forall_cons_2; [intros [H|H]; discriminate H|].
    apply Forall_cons_2; [intros [H|H]; discriminate H|]. constructor. }
  split; [exact Hall|].
  apply (main_unknown_only (Packet:=packet)
           (Config.mk 1500 [bogus; service "relay" "R" "" 0]) mapOrder 0 Hall).
Defined.

(** A listener without a size of its own and a forwarder with one, under a
    router-wide size of 1500. *)
Lemma main_positive_buffer_witness :
  (0 < Config.BufferSize (Config.mk 1500 (before ++ after)))%Z
  ∧ Forall (λ cfg, (0 < ComponentConfig.BufferSize cfg)%Z)
      (constructed
         (main (Packet:=packet) (Parsed (Config.mk 1500 (before ++ after)))
               mapOrder 0).2).
Proof.
  split; [cbn; lia|].
  apply (main_positive_buffer (Packet:=packet)
           (Config.mk 1500 (before ++ after)) mapOrder 0).
  cbn. lia.
Defined.

End MoreRuns.
